(** * Mergington High School activities: the client script and the directory

    A shallow embedding of [src/static/app.js], the script of the activities
    page, together with the sign-up operation of the activity directory it
    talks to.

    The script is event driven.  Each of its handlers is embedded as a
    function on an explicit [page] state (the DOM nodes the script touches,
    its variable [activities], the pending timers, the requests it has
    issued and the console).  An [await] splits a handler in two: the part
    that issues the request and the part that resumes with whatever the
    network delivered. *)

From Stdlib Require Import String Ascii ZArith List Lia DecimalString.
From stdpp Require Import gmap strings list.

(** ** The fragment of JavaScript the script relies on *)

Module JS.

Local Open Scope Z_scope.

(** A parsed JSON document.  [JNum z] is the Number with the integral value
    [z]; the embedding covers the integers every engine prints in plain
    decimal notation (magnitude below 10^21), which is what the integer field
    of the API carries.  A character of a string stands for one UTF-16 code
    unit below 256.  The members of [JObj] are the own properties of the
    parsed object in the order [Object.entries] enumerates them, each key
    once. *)
#[warnings="-register-all"]
Inductive json : Type :=
| JNull
| JBool (b : bool)
| JNum (z : Z)
| JStr (s : string)
| JArr (elements : list json)
| JObj (members : list (string * json)).

(** A JavaScript value read out of parsed JSON: [None] is [undefined]. *)
Definition value : Type := option json.
Definition undefined : value := None.

(** The exceptions that reach the script's [catch] clauses. *)
Inductive error : Type :=
| TypeError
| SyntaxError
| OtherError (name : string).

(** The result of evaluating an expression or a block: a value, or an
    exception on its way to the enclosing [catch]. *)
Inductive completion (A : Type) : Type :=
| Normal (a : A)
| Throw (e : error).
Arguments Normal {A} a.
Arguments Throw {A} e.

#[export] Instance completion_ret : MRet completion := @Normal.
#[export] Instance completion_bind : MBind completion :=
  fun A B f m => match m with Normal a => f a | Throw e => Throw e end.

Definition dq : string := String (ascii_of_nat 34) EmptyString.
Definition nl : string := String (ascii_of_nat 10) EmptyString.

(** [Array.prototype.join] on strings. *)
Fixpoint join (sep : string) (l : list string) : string :=
  match l with
  | [] => EmptyString
  | [s] => s
  | s :: l' => s +:+ sep +:+ join sep l'
  end.

(** Number::toString, for the integers of the embedding. *)
Definition NumberToString (z : Z) : string :=
  NilZero.string_of_int (Z.to_int z).

(** ToString on JSON values: an array prints its elements separated by
    commas, with [null] printed as nothing; a plain object prints as
    [[object Object]]. *)
Fixpoint ToString (j : json) : string :=
  match j with
  | JNull => "null"
  | JBool true => "true"
  | JBool false => "false"
  | JNum z => NumberToString z
  | JStr s => s
  | JArr l =>
      join ","
        (List.map (fun e => match e with JNull => EmptyString | _ => ToString e end) l)
  | JObj _ => "[object Object]"
  end.

(** ToString of a template-literal substitution. *)
Definition subst (v : value) : string :=
  match v with
  | None => "undefined"
  | Some j => ToString j
  end.

(** ToBoolean. *)
Definition ToBoolean (v : value) : bool :=
  match v with
  | None => false
  | Some JNull => false
  | Some (JBool b) => b
  | Some (JNum z) => negb (z =? 0)
  | Some (JStr s) => negb (String.eqb s EmptyString)
  | Some (JArr _) => true
  | Some (JObj _) => true
  end.

(** [a || b] where [b] is a string literal. *)
Definition or_else (a : value) (b : string) : json :=
  match a with
  | Some j => if ToBoolean a then j else JStr b
  | None => JStr b
  end.

(** The properties the script reads as data.  None of them is defined on
    [Object.prototype], [Array.prototype] or [String.prototype], except
    [length] on arrays and strings. *)
Inductive property : Type :=
| p_detail
| p_description
| p_schedule
| p_max_participants
| p_participants
| p_length.

Definition property_name (p : property) : string :=
  match p with
  | p_detail => "detail"
  | p_description => "description"
  | p_schedule => "schedule"
  | p_max_participants => "max_participants"
  | p_participants => "participants"
  | p_length => "length"
  end.

Fixpoint own_property (k : string) (m : list (string * json)) : value :=
  match m with
  | [] => None
  | (k', j) :: m' => if String.eqb k k' then Some j else own_property k m'
  end.

(** [v.p]: reading a property of [undefined] or [null] throws a TypeError;
    a primitive other than a string has none of the properties above. *)
Definition Get (v : value) (p : property) : completion value :=
  match v with
  | None => Throw TypeError
  | Some JNull => Throw TypeError
  | Some (JObj m) => Normal (own_property (property_name p) m)
  | Some (JArr l) =>
      match p with
      | p_length => Normal (Some (JNum (Z.of_nat (length l))))
      | _ => Normal None
      end
  | Some (JStr s) =>
      match p with
      | p_length => Normal (Some (JNum (Z.of_nat (String.length s))))
      | _ => Normal None
      end
  | Some (JBool _) => Normal None
  | Some (JNum _) => Normal None
  end.

(** *** ToNumber of a string, compared with zero *)

Definition is_StrWhiteSpaceChar (c : ascii) : bool :=
  let n := nat_of_ascii c in
  ((9 <=? n) && (n <=? 13) || (n =? 32) || (n =? 160))%nat.

Fixpoint trim_start (l : list ascii) : list ascii :=
  match l with
  | c :: l' => if is_StrWhiteSpaceChar c then trim_start l' else l
  | [] => []
  end.

Definition trim (l : list ascii) : list ascii :=
  rev (trim_start (rev (trim_start l))).

Definition digit_of (radix : nat) (c : ascii) : option Z :=
  let n := nat_of_ascii c in
  let d :=
    if ((48 <=? n) && (n <=? 57))%nat then Some (n - 48)%nat
    else if ((97 <=? n) && (n <=? 102))%nat then Some (n - 87)%nat
    else if ((65 <=? n) && (n <=? 70))%nat then Some (n - 55)%nat
    else None in
  match d with
  | Some k => if (k <? radix)%nat then Some (Z.of_nat k) else None
  | None => None
  end.

(** Reads the longest run of digits: the number read so far, how many digits
    were read, and what follows them. *)
Fixpoint digits (radix : nat) (acc : Z) (count : nat) (l : list ascii)
  : Z * nat * list ascii :=
  match l with
  | c :: l' =>
      match digit_of radix c with
      | Some d => digits radix (Z.of_nat radix * acc + d) (S count) l'
      | None => (acc, count, l)
      end
  | [] => (acc, count, [])
  end.

(** A literal made of digits of the radix only, at least one of them. *)
Definition integer_literal_positive (radix : nat) (l : list ascii) : bool :=
  match digits radix 0 0%nat l with
  | (n, S _, []) => 0 <? n
  | _ => false
  end.

(** The exponent part, when what follows the mantissa is one, or nothing. *)
Definition exponent_part (l : list ascii) : option Z :=
  match l with
  | [] => Some 0
  | e :: l' =>
      if (Ascii.eqb e "e" || Ascii.eqb e "E")%char then
        let '(sign, l'') :=
          match l' with
          | c :: r =>
              if Ascii.eqb c "+" then (1, r)
              else if Ascii.eqb c "-" then (-1, r)
              else (1, l')
          | [] => (1, l')
          end in
        match digits 10 0 0%nat l'' with
        | (n, S _, []) => Some (sign * n)
        | _ => None
        end
      else None
  end.

(** StrUnsignedDecimalLiteral: [m * 10^e] is the mathematical value; it is a
    positive Number when it does not round to zero, that is when it exceeds
    [2^-1075]. *)
Definition unsigned_decimal_positive (l : list ascii) : bool :=
  if String.eqb (string_of_list_ascii l) "Infinity" then true
  else
    let '(ip, ni, r1) := digits 10 0 0%nat l in
    let '(m, nf, r2) :=
      match r1 with
      | c :: r => if Ascii.eqb c "." then digits 10 ip 0%nat r else (ip, 0%nat, r1)
      | [] => (ip, 0%nat, r1)
      end in
    match (ni + nf)%nat, exponent_part r2 with
    | S _, Some e =>
        let e' := e - Z.of_nat nf in
        (0 <? m) && ((0 <=? e') || (10 ^ (- e') <? m * 2 ^ 1075))
    | _, _ => false
    end.

(** Whether StringToNumber of the string is greater than zero. *)
Definition string_gt_zero (s : string) : bool :=
  match trim (list_ascii_of_string s) with
  | [] => false
  | c :: r =>
      if Ascii.eqb c "-" then false
      else if Ascii.eqb c "+" then unsigned_decimal_positive r
      else
        match r with
        | x :: r' =>
            if Ascii.eqb c "0" && (Ascii.eqb x "x" || Ascii.eqb x "X")
            then integer_literal_positive 16 r'
            else if Ascii.eqb c "0" && (Ascii.eqb x "o" || Ascii.eqb x "O")
            then integer_literal_positive 8 r'
            else if Ascii.eqb c "0" && (Ascii.eqb x "b" || Ascii.eqb x "B")
            then integer_literal_positive 2 r'
            else unsigned_decimal_positive (c :: r)
        | [] => unsigned_decimal_positive (c :: r)
        end
  end.

(** [v > 0]: the operand is converted to a primitive (an array or an object
    through its [toString]) and then to a Number; a comparison with NaN is
    false. *)
Definition gt_zero (v : value) : bool :=
  match v with
  | None => false
  | Some JNull => false
  | Some (JBool b) => b
  | Some (JNum z) => 0 <? z
  | Some (JStr s) => string_gt_zero s
  | Some (JArr l) => string_gt_zero (ToString (JArr l))
  | Some (JObj m) => string_gt_zero (ToString (JObj m))
  end.

(** *** Object.entries *)

Fixpoint indexed {A : Type} (i : nat) (l : list A) : list (string * A) :=
  match l with
  | [] => []
  | x :: l' => (NumberToString (Z.of_nat i), x) :: indexed (S i) l'
  end.

(** [Object.entries(v)] for a value parsed from JSON: [null] throws, an array
    and a string enumerate their indices, other primitives have no entries. *)
Definition Object_entries (j : json) : completion (list (string * json)) :=
  match j with
  | JNull => Throw TypeError
  | JObj m => Normal m
  | JArr l => Normal (indexed 0 l)
  | JStr s =>
      Normal (indexed 0
                (List.map (fun c => JStr (String c EmptyString)) (list_ascii_of_string s)))
  | JBool _ => Normal []
  | JNum _ => Normal []
  end.

(** *** encodeURIComponent *)

Definition hex_digit (n : nat) : ascii :=
  ascii_of_nat (if (n <? 10)%nat then 48 + n else 55 + n)%nat.

Definition percent (byte : nat) : string :=
  String "%" (String (hex_digit (byte / 16)) (String (hex_digit (byte mod 16)) EmptyString)).

Definition is_unreserved (c : ascii) : bool :=
  let n := nat_of_ascii c in
  ((48 <=? n) && (n <=? 57) || (65 <=? n) && (n <=? 90) || (97 <=? n) && (n <=? 122))%nat
  || existsb (Ascii.eqb c) (list_ascii_of_string "-_.!~*'()").

(** Every code unit that is not unreserved is replaced by the escaped bytes
    of its UTF-8 encoding: one byte below 128, two bytes from 128 to 255.
    There is no surrogate among the code units of the embedding, so the
    function never throws. *)
Fixpoint encodeURIComponent (s : string) : string :=
  match s with
  | EmptyString => EmptyString
  | String c s' =>
      let n := nat_of_ascii c in
      (if is_unreserved c then String c EmptyString
       else if (n <? 128)%nat then percent n
       else percent (192 + n / 64) +:+ percent (128 + n mod 64))
      +:+ encodeURIComponent s'
  end.

End JS.

(** ** The page *)

Module Page.
Import JS.

(** An option of the selection control: [option.value] and
    [option.textContent]. *)
Record option_element : Type := mk_option {
  option_value : string;
  option_text : string
}.

(** A child of the activities list: a card appended by the script (a [div]
    with its class and the string assigned to its [innerHTML]), or the nodes
    that an assignment to the list's own [innerHTML] produced, kept as their
    markup. *)
Inductive child : Type :=
| Card (className : string) (innerHTML : string)
| Markup (html : string).

(** The message element: its text and its class list (an ordered set of
    tokens).  The style sheet hides an element whose classes include
    [hidden]. *)
Record message_element : Type := mk_message {
  textContent : string;
  classList : list string
}.

Record request : Type := mk_request {
  method : string;
  url : string
}.

(** The values of the two form controls. *)
Record form : Type := mk_form {
  email : string;
  activity : string
}.

Record page : Type := mk_page {
  activities : json;                  (* the script's variable [activities] *)
  activitiesList : list child;        (* children of #activities-list *)
  activitySelect : list option_element; (* options of select#activity *)
  form_values : form;                 (* current values of #email and #activity *)
  form_defaults : form;               (* the values [reset()] restores *)
  messageDiv : message_element;       (* #message *)
  clock : N;                          (* milliseconds since the page was loaded *)
  timers : list N;                    (* due times of the pending hide callbacks *)
  requests : list request;            (* requests issued so far, oldest first *)
  console : list (string * error)     (* calls to console.error, oldest first *)
}.

Definition set_activities (j : json) (st : page) : page :=
  mk_page j (activitiesList st) (activitySelect st) (form_values st) (form_defaults st)
    (messageDiv st) (clock st) (timers st) (requests st) (console st).
Definition set_activitiesList (l : list child) (st : page) : page :=
  mk_page (activities st) l (activitySelect st) (form_values st) (form_defaults st)
    (messageDiv st) (clock st) (timers st) (requests st) (console st).
Definition set_activitySelect (l : list option_element) (st : page) : page :=
  mk_page (activities st) (activitiesList st) l (form_values st) (form_defaults st)
    (messageDiv st) (clock st) (timers st) (requests st) (console st).
Definition set_form_values (f : form) (st : page) : page :=
  mk_page (activities st) (activitiesList st) (activitySelect st) f (form_defaults st)
    (messageDiv st) (clock st) (timers st) (requests st) (console st).
Definition set_messageDiv (m : message_element) (st : page) : page :=
  mk_page (activities st) (activitiesList st) (activitySelect st) (form_values st)
    (form_defaults st) m (clock st) (timers st) (requests st) (console st).
Definition set_clock (t : N) (st : page) : page :=
  mk_page (activities st) (activitiesList st) (activitySelect st) (form_values st)
    (form_defaults st) (messageDiv st) t (timers st) (requests st) (console st).
Definition set_timers (l : list N) (st : page) : page :=
  mk_page (activities st) (activitiesList st) (activitySelect st) (form_values st)
    (form_defaults st) (messageDiv st) (clock st) l (requests st) (console st).
Definition set_requests (l : list request) (st : page) : page :=
  mk_page (activities st) (activitiesList st) (activitySelect st) (form_values st)
    (form_defaults st) (messageDiv st) (clock st) (timers st) l (console st).
Definition set_console (l : list (string * error)) (st : page) : page :=
  mk_page (activities st) (activitiesList st) (activitySelect st) (form_values st)
    (form_defaults st) (messageDiv st) (clock st) (timers st) (requests st) l.

(** *** Class lists *)

Definition is_ascii_whitespace (c : ascii) : bool :=
  let n := nat_of_ascii c in
  (n =? 9) || (n =? 10) || (n =? 12) || (n =? 13) || (n =? 32).

Definition flush (cur : list ascii) : list string :=
  match cur with
  | [] => []
  | _ => [string_of_list_ascii cur]
  end.

Fixpoint split_on_whitespace (cur : list ascii) (l : list ascii) : list string :=
  match l with
  | [] => flush cur
  | c :: l' =>
      if is_ascii_whitespace c then flush cur ++ split_on_whitespace [] l'
      else split_on_whitespace (cur ++ [c]) l'
  end.

Definition has_token (tok : string) (set : list string) : bool :=
  existsb (String.eqb tok) set.

Definition token_add (tok : string) (set : list string) : list string :=
  if has_token tok set then set else set ++ [tok].

Definition token_remove (tok : string) (set : list string) : list string :=
  List.filter (fun t => negb (String.eqb tok t)) set.

(** The token set of a [class] attribute value: its whitespace-separated
    tokens, each kept at its first occurrence. *)
Definition class_tokens (attr : string) : list string :=
  fold_left (fun set tok => token_add tok set)
    (split_on_whitespace [] (list_ascii_of_string attr)) [].

Definition is_hidden (m : message_element) : bool :=
  has_token "hidden" (classList m).

(** Assigning to [textContent]: [null] becomes the empty string, any other
    value its ToString. *)
Definition DOMString (text : json) : string :=
  match text with
  | JNull => EmptyString
  | _ => ToString text
  end.

(** *** Timers and the network *)

(** [setTimeout(() => messageDiv.classList.add("hidden"), delay)]: the only
    callback the script ever schedules. *)
Definition setTimeout_hide (delay : N) (st : page) : page :=
  set_timers (timers st ++ [clock st + delay]%N) st.

Definition hide_message (st : page) : page :=
  set_messageDiv
    (mk_message (textContent (messageDiv st)) (token_add "hidden" (classList (messageDiv st))))
    st.

Definition unhide_message (st : page) : page :=
  set_messageDiv
    (mk_message (textContent (messageDiv st))
       (token_remove "hidden" (classList (messageDiv st))))
    st.

(** [d] milliseconds pass with no other event: every timer that falls due
    runs its callback and is discarded. *)
Definition advance (d : N) (st : page) : page :=
  let now := (clock st + d)%N in
  let due := List.filter (fun t => t <=? now)%N (timers st) in
  let later := List.filter (fun t => now <? t)%N (timers st) in
  fold_right (fun _ s => hide_message s) (set_clock now (set_timers later st)) due.

Definition fetch (r : request) (st : page) : page :=
  set_requests (requests st ++ [r]) st.

Definition console_error (label : string) (e : error) (st : page) : page :=
  set_console (console st ++ [(label, e)]) st.

(** What an awaited [fetch] followed by [response.json()] delivers: the
    fetch rejects, or a response arrives with its status and the result of
    parsing its body. *)
Inductive fetch_outcome : Type :=
| Rejected (e : error)
| Responded (status : Z) (body : completion json).

(** [response.ok] *)
Definition ok (status : Z) : bool :=
  ((200 <=? status) && (status <=? 299))%Z.

End Page.

(** ** The script: [src/static/app.js] *)

Module App.
Import JS Page.

(** A statement that ran on a page: it completed, or it threw after leaving
    the page as given. *)
Inductive outcome : Type :=
| Done (st : page)
| Thrown (e : error) (st : page).

(** The page a statement left behind. *)
Definition page_of (o : outcome) : page :=
  match o with
  | Done st => st
  | Thrown _ st => st
  end.

(** [showMessage(text, type)] *)
Definition showMessage (text : json) (type : string) (st : page) : page :=
  let st1 := set_messageDiv (mk_message (DOMString text) (classList (messageDiv st))) st in
  let st2 :=
    set_messageDiv
      (mk_message (textContent (messageDiv st1)) (class_tokens ("message " +:+ type))) st1 in
  let st3 := unhide_message st2 in
  setTimeout_hide 5000 st3.

Definition no_participants : string :=
  "<p class=" +:+ dq +:+ "no-participants" +:+ dq +:+ ">No participants yet</p>".

(** The list of participants of a card (lines 25 to 30).  [map] exists on
    arrays only: calling it on anything else throws a TypeError. *)
Definition participantsList (details : json) : completion string :=
  participants ← Get (Some details) p_participants;
  len ← Get participants p_length;
  if gt_zero len then
    match participants with
    | Some (JArr emails) =>
        Normal ("<ul class=" +:+ dq +:+ "participants-list" +:+ dq +:+ ">"
                +:+ join EmptyString
                      (List.map (fun email => "<li>" +:+ subst (Some email) +:+ "</li>") emails)
                +:+ "</ul>")
    | _ => Throw TypeError
    end
  else
    Normal no_participants.

(** The string assigned to the card's [innerHTML] (lines 23 to 41).  The
    value of [spotsLeft] is never used; computing it reads
    [details.max_participants] and [details.participants.length], and the
    subtraction itself cannot throw on values parsed from JSON. *)
Definition card_innerHTML (name : string) (details : json) : completion string :=
  _ ← Get (Some details) p_max_participants;
  _ ← (p ← Get (Some details) p_participants; Get p p_length);
  list ← participantsList details;
  description ← Get (Some details) p_description;
  schedule ← Get (Some details) p_schedule;
  participants ← Get (Some details) p_participants;
  len ← Get participants p_length;
  max_participants ← Get (Some details) p_max_participants;
  Normal
    (nl +:+ "          <h4>" +:+ name +:+ "</h4>"
     +:+ nl +:+ "          <p><strong>Description:</strong> " +:+ subst description +:+ "</p>"
     +:+ nl +:+ "          <p><strong>Schedule:</strong> " +:+ subst schedule +:+ "</p>"
     +:+ nl +:+ "          <p><strong>Capacity:</strong> " +:+ subst len +:+ "/"
     +:+ subst max_participants +:+ "</p>"
     +:+ nl +:+ "          <div class=" +:+ dq +:+ "participants-section" +:+ dq +:+ ">"
     +:+ nl +:+ "            <p><strong>Current Participants:</strong></p>"
     +:+ nl +:+ "            " +:+ list
     +:+ nl +:+ "          </div>"
     +:+ nl +:+ "        ").

(** The callback of [forEach] (lines 19 to 50): one card appended to the
    list, one option appended to the selection control. *)
Definition render_entry (entry : string * json) (st : page) : outcome :=
  let '(name, details) := entry in
  match card_innerHTML name details with
  | Throw e => Thrown e st
  | Normal html =>
      let st1 := set_activitiesList (activitiesList st ++ [Card "activity-card" html]) st in
      Done (set_activitySelect (activitySelect st1 ++ [mk_option name name]) st1)
  end.

Fixpoint forEach (f : string * json -> page -> outcome) (entries : list (string * json))
  (st : page) : outcome :=
  match entries with
  | [] => Done st
  | entry :: rest =>
      match f entry st with
      | Done st' => forEach f rest st'
      | Thrown e st' => Thrown e st'
      end
  end.

Definition failure_message : string :=
  "<p>Failed to load activities. Please try again later.</p>".

(** The [catch] clause of [fetchActivities] (lines 51 to 55). *)
Definition fetchActivities_catch (e : error) (st : page) : page :=
  console_error "Error fetching activities:" e
    (set_activitiesList [Markup failure_message] st).

(** [fetchActivities()] up to its first [await]: the request is issued. *)
Definition fetchActivities (st : page) : page :=
  fetch (mk_request "GET" "/activities") st.

(** The body of the [try] block once the response is parsed and assigned
    (lines 16 to 50). *)
Definition render_activities (st : page) : outcome :=
  let st1 := set_activitiesList [] st in
  match Object_entries (activities st1) with
  | Throw e => Thrown e st1
  | Normal entries => forEach render_entry entries st1
  end.

(** [fetchActivities()] from the point where the awaited response, parsed or
    not, is delivered (lines 13 to 55). *)
Definition fetchActivities_resume (o : fetch_outcome) (st : page) : page :=
  match o with
  | Rejected e => fetchActivities_catch e st
  | Responded _ (Throw e) => fetchActivities_catch e st
  | Responded _ (Normal parsed) =>
      match render_activities (set_activities parsed st) with
      | Done st' => st'
      | Thrown e st' => fetchActivities_catch e st'
      end
  end.

(** [populateActivitySelect()] (lines 58 to 68).  Nothing in the script calls
    it. *)
Definition populateActivitySelect (st : page) : outcome :=
  let st1 := set_activitySelect [mk_option EmptyString "-- Select an activity --"] st in
  match Object_entries (activities st1) with
  | Throw e => Thrown e st1
  | Normal entries =>
      Done (fold_left
              (fun s name => set_activitySelect (activitySelect s ++ [mk_option name name]) s)
              (List.map fst entries) st1)
  end.

(** [signupForm.reset()] *)
Definition reset (st : page) : page :=
  set_form_values (form_defaults st) st.

Definition signup_url (activity email : string) : string :=
  "/activities/" +:+ encodeURIComponent activity +:+ "/signup?email="
  +:+ encodeURIComponent email.

(** The [catch] clause of the submit handler (lines 108 to 111). *)
Definition submit_catch (e : error) (st : page) : page :=
  console_error "Error signing up:" e
    (showMessage (JStr "Failed to sign up. Please try again.") "error" st).

(** The submit handler up to its first [await] (lines 72 to 90). *)
Definition submit (st : page) : page :=
  let email := email (form_values st) in
  let activity := activity (form_values st) in
  if negb (ToBoolean (Some (JStr email))) || negb (ToBoolean (Some (JStr activity))) then
    showMessage (JStr "Please fill in all fields") "error" st
  else
    fetch (mk_request "POST" (signup_url activity email)) st.

(** Lines 102 to 107, reached when neither branch of the test on
    [response.ok] threw. *)
Definition submit_epilogue (st : page) : page :=
  setTimeout_hide 5000 (unhide_message st).

(** The submit handler from the point where the awaited response, parsed or
    not, is delivered (lines 92 to 111). *)
Definition submit_resume (o : fetch_outcome) (st : page) : page :=
  match o with
  | Rejected e => submit_catch e st
  | Responded _ (Throw e) => submit_catch e st
  | Responded status (Normal result) =>
      if ok status then
        let st1 := showMessage (JStr "Successfully signed up!") "success" st in
        let st2 := reset st1 in
        let st3 := fetchActivities st2 in
        submit_epilogue st3
      else
        match Get (Some result) p_detail with
        | Throw e => submit_catch e st
        | Normal detail =>
            submit_epilogue (showMessage (or_else detail "An error occurred") "error" st)
        end
  end.

(** The page when the script starts (lines 2 to 7 and 126): the elements are
    those of the document, [activities] is the empty object, and the first
    load is under way. *)
Definition DOMContentLoaded (list0 : list child) (select0 : list option_element)
  (defaults : form) (message0 : message_element) : page :=
  fetchActivities
    (mk_page (JObj []) list0 select0 defaults defaults message0 0%N [] [] []).

End App.

(** ** The activity directory *)

Module Directory.
Import JS.

(** Modelled from the spec: an activity, identified by its name, the key
    under which the directory holds it.  The participants are in the order
    in which they signed up. *)
Record Activity : Type := mk_activity {
  description : string;
  schedule : string;
  max_participants : Z;
  participants : list string
}.

(** Modelled from the spec: the texts of the three response bodies, which
    the spec leaves open (a confirmation message, a human-readable detail for
    an unknown activity, a descriptive detail for a duplicate sign-up). *)
Record texts : Type := mk_texts {
  confirmation : string -> string -> string;
  not_found : string;
  already_signed_up : string
}.

(** Modelled from the spec: a response of the server, its status and its
    JSON body ([{message}] on success, [{detail}] on failure). *)
Record response : Type := mk_response {
  status : Z;
  body : json
}.

Definition with_participant (email : string) (a : Activity) : Activity :=
  mk_activity (description a) (schedule a) (max_participants a) (participants a ++ [email]).

(** Modelled from the spec: the sign-up operation of the server
    ([src/app.py], not among the sources).  The activity name must exist in
    the mapping, otherwise the request fails with 404 and a detail message;
    the email must not already be in that activity's participant list,
    otherwise it fails with 400 and a detail message; on success the email is
    appended to the participant list and a confirmation message is returned
    with 200.  Capacity is not checked. *)
Definition signup (t : texts) (name email : string) (d : gmap string Activity)
  : response * gmap string Activity :=
  match d !! name with
  | None => (mk_response 404 (JObj [("detail", JStr (not_found t))]), d)
  | Some a =>
      if existsb (String.eqb email) (participants a) then
        (mk_response 400 (JObj [("detail", JStr (already_signed_up t))]), d)
      else
        (mk_response 200 (JObj [("message", JStr (confirmation t name email))]),
         <[name := with_participant email a]> d)
  end.

(** How many times an email occurs in a participant list. *)
Definition occurrences (email : string) (l : list string) : nat :=
  length (List.filter (String.eqb email) l).

End Directory.

(** ** Activity data on the wire *)

Module Wire.
Import JS Directory.

(** The JSON object the client receives for one activity. *)
Definition activity_json (a : Activity) : json :=
  JObj [("description", JStr (description a));
        ("schedule", JStr (schedule a));
        ("max_participants", JNum (max_participants a));
        ("participants", JArr (List.map JStr (participants a)))].

(** The body of [GET /activities]: activity name to activity. *)
Definition snapshot_json (s : list (string * Activity)) : json :=
  JObj (List.map (fun entry => (fst entry, activity_json (snd entry))) s).

End Wire.

(** ** Sample data *)

Module Sample.
Import JS Page App Directory Wire.

Definition placeholder_option : option_element :=
  mk_option EmptyString "-- Select an activity --".

(** A page whose first load is still under way.  The document is not among
    the sources; this one has a loading message in the list area, the
    placeholder option in the selection control, empty fields and a hidden
    message element. *)
Definition fresh_page : page :=
  DOMContentLoaded [Markup "<p>Loading activities...</p>"] [placeholder_option]
    (mk_form EmptyString EmptyString) (mk_message EmptyString ["hidden"]).

Definition chess_club : Activity :=
  mk_activity "Learn strategies and compete in chess tournaments"
    "Fridays, 3:30 PM - 5:00 PM" 12 [].

Definition full_club : Activity :=
  mk_activity "Two seats only" "Mondays" 2 ["ada@mergington.edu"; "bob@mergington.edu"].

Definition chess_snapshot : json := snapshot_json [("Chess Club", chess_club)].

(** A directory that holds the chess club alone, with nobody signed up. *)
Definition seed_directory : gmap string Activity := {[ "Chess Club" := chess_club ]}.

(** Texts for the three response bodies. *)
Definition sample_texts : texts :=
  mk_texts (fun name email => "Signed up " +:+ email +:+ " for " +:+ name)
    "Activity not found" "Student is already signed up".

(** The page once the user has filled in both fields. *)
Definition filled_in (st : page) : page :=
  set_form_values (mk_form "ada@mergington.edu" "Chess Club") st.

(** The page after its first load. *)
Definition loaded_page : page :=
  fetchActivities_resume (Responded 200 (Normal chess_snapshot)) fresh_page.

(** The page while the sign-up request of the filled-in form is awaited. *)
Definition submitted_page : page := submit (filled_in loaded_page).

(** The snapshot once the sign-up went through. *)
Definition chess_snapshot_after : json :=
  snapshot_json [("Chess Club", with_participant "ada@mergington.edu" chess_club)].

(** An error body in the shape the server gives its errors. *)
Definition error_body : json := JObj [("detail", JStr "Internal Server Error")].

End Sample.

(** ** Vocabulary of the statements *)

Module Text.
Import JS Page App Directory Wire.

(** [needle] occurs in [hay], character for character. *)
Definition contains (needle hay : string) : Prop :=
  exists pre post, hay = pre +:+ needle +:+ post.

(** [hay] starts with [needle]. *)
Definition starts_with (needle hay : string) : Prop :=
  exists post, hay = needle +:+ post.

(** The markup the script produces for the participants of a well-formed
    activity, written out. *)
Definition participants_markup (emails : list string) : string :=
  match emails with
  | [] => no_participants
  | _ =>
      "<ul class=" +:+ dq +:+ "participants-list" +:+ dq +:+ ">"
      +:+ join EmptyString (List.map (fun email => "<li>" +:+ email +:+ "</li>") emails)
      +:+ "</ul>"
  end.

(** The capacity fraction of an activity: [participants.length], a slash,
    [max_participants]. *)
Definition capacity_fraction (a : Activity) : string :=
  NumberToString (Z.of_nat (length (participants a))) +:+ "/"
  +:+ NumberToString (max_participants a).

(** The card of a well-formed activity, written out. *)
Definition card_markup (name : string) (a : Activity) : string :=
  nl +:+ "          <h4>" +:+ name +:+ "</h4>"
  +:+ nl +:+ "          <p><strong>Description:</strong> " +:+ description a +:+ "</p>"
  +:+ nl +:+ "          <p><strong>Schedule:</strong> " +:+ schedule a +:+ "</p>"
  +:+ nl +:+ "          <p><strong>Capacity:</strong> "
  +:+ NumberToString (Z.of_nat (length (participants a))) +:+ "/"
  +:+ NumberToString (max_participants a) +:+ "</p>"
  +:+ nl +:+ "          <div class=" +:+ dq +:+ "participants-section" +:+ dq +:+ ">"
  +:+ nl +:+ "            <p><strong>Current Participants:</strong></p>"
  +:+ nl +:+ "            " +:+ participants_markup (participants a)
  +:+ nl +:+ "          </div>"
  +:+ nl +:+ "        ".

(** The [catch] clause of [fetchActivities] ran with the exception [e]: its
    call to [console.error] is the last entry of the console, which held
    [before] until then. *)
Definition load_caught (e : error) (before : list (string * error)) (st' : page) : Prop :=
  console st' = before ++ [("Error fetching activities:", e)].

(** A sign-up that failed: the fetch rejected, the body did not parse, or
    the status is outside 200 to 299. *)
Definition failed (o : fetch_outcome) : Prop :=
  match o with
  | Rejected _ => True
  | Responded _ (Throw _) => True
  | Responded status (Normal _) => ok status = false
  end.

(** The [detail] member of the parsed body of a response, when the body has
    one and ToBoolean holds of it. *)
Definition truthy_detail (o : fetch_outcome) : option json :=
  match o with
  | Responded _ (Normal result) =>
      match Get (Some result) p_detail with
      | Normal (Some detail) => if ToBoolean (Some detail) then Some detail else None
      | _ => None
      end
  | _ => None
  end.

(** The card and the option of an entry of a well-formed snapshot. *)
Definition card_of (entry : string * Activity) : child :=
  Card "activity-card" (card_markup (fst entry) (snd entry)).

Definition option_of (entry : string * Activity) : option_element :=
  mk_option (fst entry) (fst entry).

(** What a card shows of the activity it was built from: its name, its
    description, its schedule, its capacity fraction, and either the
    placeholder or every participant. *)
Definition shows (name : string) (a : Activity) (html : string) : Prop :=
  contains ("          <h4>" +:+ name +:+ "</h4>") html
  /\ contains ("          <p><strong>Description:</strong> " +:+ description a +:+ "</p>") html
  /\ contains ("          <p><strong>Schedule:</strong> " +:+ schedule a +:+ "</p>") html
  /\ contains ("          <p><strong>Capacity:</strong> " +:+ capacity_fraction a +:+ "</p>") html
  /\ (participants a = [] -> contains no_participants html)
  /\ (forall email, In email (participants a) ->
        contains ("<li>" +:+ email +:+ "</li>") html).

End Text.

(** ** Runs of the page *)

Module Run.
Import JS Page App.

(** What can happen to the page once the script has started.  A response may
    be delivered at any time, in any order: the script keeps no record of
    the requests it is waiting for. *)
Inductive event : Type :=
| Typed (f : form)                         (* the user changes the fields *)
| Submitted                                (* the form is submitted *)
| SignupDelivered (o : fetch_outcome)      (* an awaited sign-up response arrives *)
| ActivitiesDelivered (o : fetch_outcome)  (* an awaited list response arrives *)
| Elapsed (d : N).                         (* time passes *)

Definition step (ev : event) (st : page) : page :=
  match ev with
  | Typed f => set_form_values f st
  | Submitted => submit st
  | SignupDelivered o => submit_resume o st
  | ActivitiesDelivered o => fetchActivities_resume o st
  | Elapsed d => advance d st
  end.

Definition run (evs : list event) (st : page) : page :=
  fold_left (fun s ev => step ev s) evs st.

(** Every pending timer is due in the future, 5 seconds from now at the
    latest. *)
Definition timers_ahead (st : page) : Prop :=
  Forall (fun t => (clock st < t /\ t <= clock st + 5000)%N) (timers st).

(** A message that is visible has a timer pending. *)
Definition visible_has_timer (st : page) : Prop :=
  timers st = [] -> is_hidden (messageDiv st) = true.

(** The two kinds of request the script issues. *)
Definition script_request (r : request) : Prop :=
  r = mk_request "GET" "/activities"
  \/ exists activity email, r = mk_request "POST" (signup_url activity email).

(** [l1] is what [l2] starts with. *)
Definition starts (A : Type) (l1 l2 : list A) : Prop :=
  exists added, l2 = l1 ++ added.
Arguments starts {A} l1 l2.

(** The characters an escaped component is made of: the unreserved ones and
    the percent sign. *)
Definition url_safe (c : ascii) : bool :=
  is_unreserved c || Ascii.eqb c "%".

Definition all_url_safe (s : string) : Prop :=
  forallb url_safe (list_ascii_of_string s) = true.

Definition hex_value (c : ascii) : nat :=
  let n := nat_of_ascii c in
  if (n <? 58)%nat then n - 48 else n - 55.

(** Reads back the first code unit of an escaped component: an unreserved
    character stands for itself, one escaped byte below 128 for that code
    unit, two escaped bytes for a code unit from 128 to 255. *)
Definition unescape_head (s : string) : option (ascii * string) :=
  match s with
  | EmptyString => None
  | String c rest =>
      if Ascii.eqb c "%" then
        match rest with
        | String h (String l rest') =>
            let b := (16 * hex_value h + hex_value l)%nat in
            if (b <? 128)%nat then Some (ascii_of_nat b, rest')
            else
              match rest' with
              | String _ (String h2 (String l2 rest'')) =>
                  let b2 := (16 * hex_value h2 + hex_value l2)%nat in
                  Some (ascii_of_nat ((b - 192) * 64 + (b2 - 128)), rest'')
              | _ => None
              end
        | _ => None
        end
      else Some (c, rest)
  end.

End Run.

(** ** Properties *)

Import JS Page App Directory Wire Sample Text.

(** *** Strings *)

Lemma append_assoc (a b c : string) : (a +:+ b) +:+ c = a +:+ (b +:+ c).
Proof.
  induction a as [|x a IH]; [reflexivity|].
  change (String x ((a +:+ b) +:+ c) = String x (a +:+ (b +:+ c))). now rewrite IH.
Qed.

Lemma append_empty_r (a : string) : a +:+ EmptyString = a.
Proof.
  induction a as [|x a IH]; [reflexivity|].
  change (String x (a +:+ EmptyString) = String x a). now rewrite IH.
Qed.

Lemma starts_with_refl (s : string) : starts_with s s.
Proof. exists EmptyString. now rewrite append_empty_r. Qed.

Lemma starts_with_here (s post : string) : starts_with s (s +:+ post).
Proof. now exists post. Qed.

Lemma starts_with_step (a s hay : string) :
  starts_with s hay -> starts_with (a +:+ s) (a +:+ hay).
Proof. intros [post ->]. exists post. now rewrite append_assoc. Qed.

Lemma starts_with_contains (s hay : string) : starts_with s hay -> contains s hay.
Proof. intros [post ->]. now exists EmptyString, post. Qed.

Lemma contains_skip (a s hay : string) : contains s hay -> contains s (a +:+ hay).
Proof.
  intros (pre & post & ->). exists (a +:+ pre), post. now rewrite append_assoc.
Qed.

Lemma contains_before (s hay b : string) : contains s hay -> contains s (hay +:+ b).
Proof.
  intros (pre & post & ->). exists pre, (post +:+ b). now rewrite !append_assoc.
Qed.

Lemma contains_refl (s : string) : contains s s.
Proof. apply starts_with_contains, starts_with_refl. Qed.

Lemma join_cons (f : string -> string) (y : string) (l : list string) :
  join EmptyString (List.map f (y :: l)) = f y +:+ join EmptyString (List.map f l).
Proof. destruct l; cbn [List.map join]; [now rewrite append_empty_r | reflexivity]. Qed.

Lemma contains_join (f : string -> string) (x : string) (l : list string) :
  In x l -> contains (f x) (join EmptyString (List.map f l)).
Proof.
  induction l as [|y l IH]; intros Hin; [destruct Hin|].
  rewrite join_cons. destruct Hin as [-> | Hin].
  - apply starts_with_contains, starts_with_here.
  - apply contains_skip, IH, Hin.
Qed.

(** Finds a run of consecutive pieces in a chain of appended strings. *)
Ltac find_piece :=
  first
    [ apply starts_with_contains;
      repeat apply starts_with_step;
      first [ apply starts_with_here | apply starts_with_refl ]
    | apply contains_skip; find_piece ].

(** Finds a piece of the chain that contains the text, given why it does. *)
Ltac find_within H :=
  first
    [ exact H
    | apply contains_before; exact H
    | apply contains_skip; find_within H ].

(** *** Cards *)

Lemma participants_markup_contains (email : string) (emails : list string) :
  In email emails -> contains ("<li>" +:+ email +:+ "</li>") (participants_markup emails).
Proof.
  intros Hin. unfold participants_markup.
  destruct emails as [|e ps] eqn:E; [destruct Hin|]. rewrite <- E in *.
  pose proof (contains_join (fun email => "<li>" +:+ email +:+ "</li>") email emails Hin) as H.
  find_within H.
Qed.

Lemma participantsList_activity (a : Activity) :
  participantsList (activity_json a) = Normal (participants_markup (participants a)).
Proof.
  destruct a as [d s m ps]. unfold participantsList, activity_json.
  destruct ps as [|e ps]; [reflexivity|].
  cbn. unfold participants_markup. rewrite List.map_map. reflexivity.
Qed.

Lemma card_innerHTML_activity (name : string) (a : Activity) :
  card_innerHTML name (activity_json a) = Normal (card_markup name a).
Proof.
  unfold card_innerHTML. rewrite participantsList_activity.
  destruct a as [d s m ps]. cbn. unfold card_markup. cbn.
  rewrite List.length_map. reflexivity.
Qed.

Lemma card_markup_shows (name : string) (a : Activity) :
  shows name a (card_markup name a).
Proof.
  unfold shows, card_markup, capacity_fraction. repeat split.
  - find_piece.
  - find_piece.
  - find_piece.
  - rewrite !append_assoc. find_piece.
  - intros ->. pose proof (contains_refl (participants_markup [])) as H.
    change (participants_markup []) with no_participants in H at 1. find_within H.
  - intros email Hin. pose proof (participants_markup_contains _ _ Hin) as H.
    find_within H.
Qed.

(** *** Loading *)

Lemma forEach_render_snapshot (s : list (string * Activity)) (st : page) :
  forEach render_entry
    (List.map (fun entry => (fst entry, activity_json (snd entry))) s) st
  = Done (set_activitySelect (activitySelect st ++ List.map option_of s)
            (set_activitiesList (activitiesList st ++ List.map card_of s) st)).
Proof.
  revert st. induction s as [|[name a] s IH]; intros st.
  - destruct st. cbn. unfold set_activitySelect, set_activitiesList. cbn.
    now rewrite !app_nil_r.
  - cbn [List.map forEach fst snd render_entry].
    rewrite card_innerHTML_activity. rewrite IH.
    destruct st. unfold set_activitySelect, set_activitiesList. cbn.
    now rewrite <- !app_assoc.
Qed.

Lemma load_snapshot (s : list (string * Activity)) (status : Z) (st : page) :
  fetchActivities_resume (Responded status (Normal (snapshot_json s))) st
  = set_activitySelect (activitySelect st ++ List.map option_of s)
      (set_activitiesList (List.map card_of s) (set_activities (snapshot_json s) st)).
Proof.
  unfold fetchActivities_resume, render_activities. cbv zeta.
  change (Object_entries (activities (set_activitiesList [] (set_activities (snapshot_json s) st))))
    with (@Normal (list (string * json))
            (List.map (fun entry => (fst entry, activity_json (snd entry))) s)).
  cbv beta iota. rewrite forEach_render_snapshot. destruct st. reflexivity.
Qed.


Example full_activity_capacity :
  capacity_fraction full_club = "2/2"
  /\ card_innerHTML "Book Club" (activity_json full_club)
     = Normal (card_markup "Book Club" full_club)
  /\ contains "<li>ada@mergington.edu</li><li>bob@mergington.edu</li>"
       (card_markup "Book Club" full_club).
Proof.
  split; [reflexivity|]. split; [apply card_innerHTML_activity|].
  assert (H : contains "<li>ada@mergington.edu</li><li>bob@mergington.edu</li>"
                (participants_markup (participants full_club))).
  { exists ("<ul class=" +:+ dq +:+ "participants-list" +:+ dq +:+ ">"), "</ul>".
    vm_compute. reflexivity. }
  unfold card_markup. find_within H.
Qed.

Lemma contains_inner (a s b r : string) :
  contains (a +:+ s +:+ b) r -> contains s r.
Proof.
  intros (pre & post & ->). exists (pre +:+ a), (b +:+ post).
  now rewrite !append_assoc.
Qed.

(** [C10] The name, the description, the schedule and every participant
    email are interpolated into the card's [innerHTML] as they are: whatever
    characters they are made of, markup included, the string assigned
    contains them character for character. *)
Theorem card_interpolates_verbatim
  (name description schedule : string) (max_participants : Z) (emails : list string) :
  exists html,
    card_innerHTML name
      (activity_json (mk_activity description schedule max_participants emails))
    = Normal html
    /\ contains name html
    /\ contains description html
    /\ contains schedule html
    /\ forall email, In email emails -> contains email html.
Proof.
  eexists. split; [apply card_innerHTML_activity|].
  destruct (card_markup_shows name (mk_activity description schedule max_participants emails))
    as (Hn & Hd & Hs & _ & _ & He).
  repeat split.
  - exact (contains_inner _ _ _ _ Hn).
  - exact (contains_inner _ _ _ _ Hd).
  - exact (contains_inner _ _ _ _ Hs).
  - intros email Hin. exact (contains_inner _ _ _ _ (He email Hin)).
Qed.

Example markup_in_a_name_is_kept :
  exists html,
    card_innerHTML "<img src=x onerror=alert(1)>" (activity_json chess_club) = Normal html
    /\ contains "<h4><img src=x onerror=alert(1)></h4>" html.
Proof.
  eexists. split; [apply card_innerHTML_activity|].
  apply (contains_inner "          " _ EmptyString).
  exact (proj1 (card_markup_shows "<img src=x onerror=alert(1)>" chess_club)).
Qed.

(** Rendering appends to the selection control and never removes from it. *)
Lemma load_appends_options (s : list (string * Activity)) (status : Z) (st : page) :
  activitySelect (fetchActivities_resume (Responded status (Normal (snapshot_json s))) st)
  = activitySelect st ++ List.map option_of s.
Proof. rewrite load_snapshot. destruct st. reflexivity. Qed.

Lemma append_options (names : list string) (st : page) :
  fold_left (fun s name => set_activitySelect (activitySelect s ++ [mk_option name name]) s)
    names st
  = set_activitySelect
      (activitySelect st ++ List.map (fun name => mk_option name name) names) st.
Proof.
  revert st. induction names as [|name names IH]; intros st; cbn [List.map fold_left].
  - destruct st. unfold set_activitySelect. cbn. now rewrite app_nil_r.
  - rewrite IH. destruct st. unfold set_activitySelect. cbn. now rewrite <- app_assoc.
Qed.

(** The function nothing calls does start from the placeholder alone. *)
Lemma populateActivitySelect_replaces (s : list (string * Activity)) (st : page) :
  exists st',
    populateActivitySelect (set_activities (snapshot_json s) st) = Done st'
    /\ activitySelect st' = placeholder_option :: List.map option_of s.
Proof.
  unfold populateActivitySelect. cbv zeta.
  change (Object_entries
            (activities (set_activitySelect [mk_option EmptyString "-- Select an activity --"]
                           (set_activities (snapshot_json s) st))))
    with (@Normal (list (string * json))
            (List.map (fun entry => (fst entry, activity_json (snd entry))) s)).
  cbv beta iota. eexists. split; [reflexivity|].
  rewrite append_options, !List.map_map. destruct st. reflexivity.
Qed.

(** [C1] Reloading after a successful sign-up leaves the option of an
    activity in the selection control twice: the options of the first load
    are still there when those of the second are appended. *)
Theorem reload_duplicates_options :
  let reloading := submit_resume (Responded 200 (Normal (JObj [("message", JStr "ok")])))
                     submitted_page in
  let reloaded := fetchActivities_resume (Responded 200 (Normal chess_snapshot_after))
                    reloading in
  List.map option_value (activitySelect loaded_page) = [EmptyString; "Chess Club"]
  /\ List.map option_value (activitySelect reloaded)
     = [EmptyString; "Chess Club"; "Chess Club"].
Proof. split; vm_compute; reflexivity. Qed.

(** [C8] When the fetch rejects, or the body of the response does not parse,
    the list area holds the failure message and nothing else, the error is
    logged, and nothing is set in motion: no request is issued and no timer
    is started.  The variable [activities] and the selection control are as
    they were. *)
Theorem load_failure (o : fetch_outcome) (e : error) (st : page)
  (Hfail : o = Rejected e \/ exists status, o = Responded status (Throw e)) :
  let st' := fetchActivities_resume o st in
  activitiesList st' = [Markup failure_message]
  /\ console st' = console st ++ [("Error fetching activities:", e)]
  /\ requests st' = requests st
  /\ timers st' = timers st
  /\ activities st' = activities st
  /\ activitySelect st' = activitySelect st
  /\ messageDiv st' = messageDiv st.
Proof.
  destruct Hfail as [-> | [status ->]]; destruct st; cbn; repeat split; reflexivity.
Qed.

Lemma load_failure_witness :
  let st' := fetchActivities_resume (Responded 502 (Throw SyntaxError)) fresh_page in
  activitiesList st' = [Markup failure_message]
  /\ console st' = console fresh_page ++ [("Error fetching activities:", SyntaxError)]
  /\ requests st' = requests fresh_page
  /\ timers st' = timers fresh_page
  /\ activities st' = activities fresh_page
  /\ activitySelect st' = activitySelect fresh_page
  /\ messageDiv st' = messageDiv fresh_page.
Proof.
  apply (load_failure (Responded 502 (Throw SyntaxError)) SyntaxError fresh_page).
  right. exists 502%Z. reflexivity.
Defined.

(** *** The status of the response *)

Lemma render_entry_console (entry : string * json) (st : page) :
  console (page_of (render_entry entry st)) = console st
  /\ activities (page_of (render_entry entry st)) = activities st.
Proof.
  destruct entry as [name details]. unfold render_entry.
  destruct (card_innerHTML name details); destruct st; split; reflexivity.
Qed.

Lemma forEach_render_console (entries : list (string * json)) (st : page) :
  console (page_of (forEach render_entry entries st)) = console st
  /\ activities (page_of (forEach render_entry entries st)) = activities st.
Proof.
  revert st. induction entries as [|entry entries IH]; intros st; cbn [forEach].
  - split; reflexivity.
  - pose proof (render_entry_console entry st) as H.
    destruct (render_entry entry st) as [st1|e st1]; cbn [page_of] in H.
    + destruct (IH st1) as [IH1 IH2]. destruct H as [H1 H2]. split; congruence.
    + exact H.
Qed.

Lemma render_activities_console (st : page) :
  console (page_of (render_activities st)) = console st
  /\ activities (page_of (render_activities st)) = activities st.
Proof.
  unfold render_activities. cbv zeta.
  destruct (Object_entries (activities (set_activitiesList [] st))) as [entries|e].
  - destruct (forEach_render_console entries (set_activitiesList [] st)) as [H1 H2].
    destruct st. split; [exact H1 | exact H2].
  - destruct st. split; reflexivity.
Qed.

Lemma not_own_suffix {A : Type} (l : list A) (x : A) : l <> l ++ [x].
Proof.
  intros H. apply (f_equal (@length A)) in H. rewrite length_app in H. cbn in H. lia.
Qed.

(** [C9] The status of the response plays no part in the load: responses
    that differ in their status only leave the same page; a body that parses
    becomes the value of [activities] whatever the status, and activity data
    is rendered whatever the status; and the [catch] clause runs exactly when
    the fetch rejects, when the body does not parse, or when rendering the
    parsed body throws. *)
Theorem load_ignores_status (st : page) :
  (forall status1 status2 body,
      fetchActivities_resume (Responded status1 body) st
      = fetchActivities_resume (Responded status2 body) st)
  /\ (forall status parsed,
        activities (fetchActivities_resume (Responded status (Normal parsed)) st) = parsed)
  /\ (forall status s,
        fetchActivities_resume (Responded status (Normal (snapshot_json s))) st
        = set_activitySelect (activitySelect st ++ List.map option_of s)
            (set_activitiesList (List.map card_of s) (set_activities (snapshot_json s) st)))
  /\ (forall o e,
        load_caught e (console st) (fetchActivities_resume o st)
        <-> (o = Rejected e
             \/ (exists status, o = Responded status (Throw e))
             \/ (exists status parsed st',
                    o = Responded status (Normal parsed)
                    /\ render_activities (set_activities parsed st) = Thrown e st'))).
Proof.
  split; [reflexivity|]. split; [|split; [intros status s; apply load_snapshot|]].
  - intros status parsed. unfold fetchActivities_resume.
    destruct (render_activities_console (set_activities parsed st)) as [_ H].
    destruct (render_activities (set_activities parsed st)) as [st'|e st'];
      cbn [page_of] in H; destruct st, st'; exact H.
  - intros o e. unfold load_caught. split.
    + destruct o as [e0 | status [parsed | e0]]; cbn [fetchActivities_resume].
      * intros H. left. destruct st. cbn in H. apply app_inv_head in H. congruence.
      * destruct (render_activities_console (set_activities parsed st)) as [Hc _].
        destruct (render_activities (set_activities parsed st)) as [st'|e0 st'] eqn:E;
          cbn [page_of] in Hc; intros H.
        -- exfalso. destruct st. cbn in *. rewrite Hc in H. exact (not_own_suffix _ _ H).
        -- right. right. exists status, parsed, st'. split; [reflexivity|].
           destruct st, st'. cbn in *. rewrite Hc in H.
           apply app_inv_head in H. congruence.
      * intros H. right. left. exists status. destruct st. cbn in H.
        apply app_inv_head in H. congruence.
    + intros [-> | [[status ->] | (status & parsed & st' & -> & E)]].
      * destruct st. reflexivity.
      * destruct st. reflexivity.
      * cbn [fetchActivities_resume].
        destruct (render_activities_console (set_activities parsed st)) as [Hc _].
        rewrite E in *. cbn [page_of] in Hc. destruct st, st'. cbn in *. now rewrite Hc.
Qed.

(** [C9], refuted as stated: a 500 whose body is JSON, yet not activity data,
    is not rendered.  The fetch did not reject and the body parsed; reading
    the participants of its only entry throws, and the [catch] clause
    runs. *)
Lemma json_error_body_reaches_catch :
  let st' := fetchActivities_resume (Responded 500 (Normal error_body)) fresh_page in
  activities st' = error_body
  /\ activitiesList st' = [Markup failure_message]
  /\ load_caught TypeError (console fresh_page) st'.
Proof. repeat split. Qed.

(** *** Messages and timers *)

Lemma showMessage_unfold (text : json) (type : string) (st : page) :
  showMessage text type st
  = set_timers (timers st ++ [clock st + 5000]%N)
      (set_messageDiv
         (mk_message (DOMString text)
            (token_remove "hidden" (class_tokens ("message " +:+ type)))) st).
Proof. destruct st. reflexivity. Qed.

Lemma has_token_remove (tok : string) (set : list string) :
  has_token tok (token_remove tok set) = false.
Proof.
  unfold has_token, token_remove. induction set as [|t set IH]; [reflexivity|].
  cbn [List.filter]. destruct (String.eqb tok t) eqn:E; cbn [negb existsb]; [exact IH|].
  now rewrite E, IH.
Qed.

Lemma has_token_add (tok : string) (set : list string) :
  has_token tok (token_add tok set) = true.
Proof.
  unfold token_add. destruct (has_token tok set) eqn:E; [exact E|].
  unfold has_token. rewrite existsb_app. cbn. rewrite String.eqb_refl.
  now rewrite orb_true_r.
Qed.

Lemma run_due_some (st : page) (t : N) (due : list N) :
  is_hidden (messageDiv (fold_right (fun _ s => hide_message s) st (t :: due))) = true.
Proof. cbn [fold_right]. destruct (fold_right _ st due). apply has_token_add. Qed.

Lemma filter_none (f : N -> bool) (l : list N) :
  Forall (fun t => f t = false) l -> List.filter f l = [].
Proof.
  induction 1 as [|t l Ht _ IH]; [reflexivity|]. cbn. now rewrite Ht.
Qed.

Lemma filter_some (f : N -> bool) (l : list N) (t : N) :
  In t l -> f t = true -> exists t' due, List.filter f l = t' :: due.
Proof.
  intros Hin Ht. destruct (List.filter f l) as [|t' due] eqn:E; [|now exists t', due].
  assert (H : In t (List.filter f l)) by (apply filter_In; split; assumption).
  rewrite E in H. destruct H.
Qed.

(** While no timer falls due, the message element is left alone. *)
Lemma advance_quiet (d : N) (st : page) :
  Forall (fun t => clock st + d < t)%N (timers st) ->
  messageDiv (advance d st) = messageDiv st.
Proof.
  intros H. unfold advance. cbv zeta.
  rewrite (filter_none (fun t => t <=? clock st + d)%N).
  - destruct st. reflexivity.
  - eapply Forall_impl; [exact H|]. intros t Ht. cbn in Ht. apply N.leb_gt. exact Ht.
Qed.

(** As soon as one timer has fallen due, the message is hidden. *)
Lemma advance_due (d t : N) (st : page) :
  In t (timers st) -> (t <= clock st + d)%N ->
  is_hidden (messageDiv (advance d st)) = true.
Proof.
  intros Hin Ht. unfold advance. cbv zeta.
  destruct (filter_some (fun t => t <=? clock st + d)%N (timers st) t Hin) as (t' & due & ->).
  - apply N.leb_le. exact Ht.
  - apply run_due_some.
Qed.




(** *** The submit handler *)

Lemma nonempty_truthy (s : string) : s <> EmptyString -> ToBoolean (Some (JStr s)) = true.
Proof. intros H. cbn. apply String.eqb_neq in H. now rewrite H. Qed.

(** [C5] With the email field or the activity field empty, the submit
    handler shows the validation error and stops there: no request is
    issued, and the form is as the user left it. *)
Theorem submit_rejects_empty_field (st : page)
  (Hempty : email (form_values st) = EmptyString
            \/ activity (form_values st) = EmptyString) :
  submit st = showMessage (JStr "Please fill in all fields") "error" st
  /\ textContent (messageDiv (submit st)) = "Please fill in all fields"
  /\ classList (messageDiv (submit st)) = ["message"; "error"]
  /\ is_hidden (messageDiv (submit st)) = false
  /\ requests (submit st) = requests st
  /\ form_values (submit st) = form_values st.
Proof.
  assert (E : submit st = showMessage (JStr "Please fill in all fields") "error" st).
  { unfold submit. cbv zeta. destruct Hempty as [-> | ->]; [reflexivity|].
    cbn [ToBoolean]. rewrite String.eqb_refl. cbn [negb]. now rewrite orb_true_r. }
  rewrite E. split; [reflexivity|]. destruct st. repeat split.
Qed.

Lemma submit_rejects_empty_field_witness :
  let st := set_form_values (mk_form "ada@mergington.edu" EmptyString) loaded_page in
  submit st = showMessage (JStr "Please fill in all fields") "error" st
  /\ textContent (messageDiv (submit st)) = "Please fill in all fields"
  /\ classList (messageDiv (submit st)) = ["message"; "error"]
  /\ is_hidden (messageDiv (submit st)) = false
  /\ requests (submit st) = requests st
  /\ form_values (submit st) = form_values st.
Proof.
  apply (submit_rejects_empty_field
           (set_form_values (mk_form "ada@mergington.edu" EmptyString) loaded_page)).
  right. reflexivity.
Defined.

Lemma submit_issues_request (st : page) :
  email (form_values st) <> EmptyString ->
  activity (form_values st) <> EmptyString ->
  submit st
  = fetch (mk_request "POST"
             (signup_url (activity (form_values st)) (email (form_values st)))) st.
Proof.
  intros He Ha. unfold submit. cbv zeta.
  now rewrite (nonempty_truthy _ He), (nonempty_truthy _ Ha).
Qed.




Lemma truthy_DOMString (j : json) : ToBoolean (Some j) = true -> DOMString j = ToString j.
Proof. destruct j; [discriminate | reflexivity ..]. Qed.




(** *** The directory *)

Lemma occurrences_absent (email : string) (l : list string) :
  ~ In email l -> occurrences email l = 0.
Proof.
  unfold occurrences. induction l as [|x l IH]; intros H; [reflexivity|].
  cbn [List.filter]. destruct (String.eqb_spec email x) as [->|_].
  - exfalso. apply H. left. reflexivity.
  - apply IH. intros Hin. apply H. right. exact Hin.
Qed.

Lemma occurrences_app (email : string) (l1 l2 : list string) :
  occurrences email (l1 ++ l2) = occurrences email l1 + occurrences email l2.
Proof. unfold occurrences. now rewrite List.filter_app, length_app. Qed.

Lemma existsb_absent (email : string) (l : list string) :
  ~ In email l -> existsb (String.eqb email) l = false.
Proof.
  intros H. destruct (existsb (String.eqb email) l) eqn:E; [|reflexivity].
  apply existsb_exists in E. destruct E as (x & Hin & Hx).
  apply String.eqb_eq in Hx. subst x. contradiction.
Qed.

Lemma existsb_present (email : string) (l : list string) :
  In email l -> existsb (String.eqb email) l = true.
Proof.
  intros H. apply existsb_exists. exists email. split; [exact H | apply String.eqb_refl].
Qed.

(** An unknown activity: 404, and the directory is as it was. *)
Lemma signup_unknown (t : texts) (name email : string) (d : gmap string Activity) :
  d !! name = None ->
  signup t name email d = (mk_response 404 (JObj [("detail", JStr (not_found t))]), d).
Proof. intros H. unfold signup. now rewrite H. Qed.

(** An email the activity already has: 400, and the directory is as it was. *)
Lemma signup_duplicate (t : texts) (name email : string) (d : gmap string Activity)
  (a : Activity) :
  d !! name = Some a -> In email (participants a) ->
  signup t name email d
  = (mk_response 400 (JObj [("detail", JStr (already_signed_up t))]), d).
Proof. intros H Hin. unfold signup. now rewrite H, (existsb_present _ _ Hin). Qed.

(** [C3] Signing up an email that the activity does not have yet, for an
    activity the directory holds, succeeds with status 200 and a
    confirmation message.  Afterwards the participant list of that activity
    is the former list followed by the email, which occurs in it exactly
    once; the rest of the activity and the other activities are as they
    were. *)
Theorem signup_new_participant
  (t : texts) (name email : string) (d : gmap string Activity) (a : Activity)
  (Hname : d !! name = Some a)
  (Hnew : ~ In email (participants a)) :
  let r := fst (signup t name email d) in
  let d' := snd (signup t name email d) in
  status r = 200%Z
  /\ body r = JObj [("message", JStr (confirmation t name email))]
  /\ (exists a',
        d' !! name = Some a'
        /\ participants a' = participants a ++ [email]
        /\ occurrences email (participants a') = 1
        /\ description a' = description a
        /\ schedule a' = schedule a
        /\ max_participants a' = max_participants a)
  /\ (forall other, other <> name -> d' !! other = d !! other).
Proof.
  cbv zeta. unfold signup. rewrite Hname, (existsb_absent _ _ Hnew). cbn [fst snd status body].
  split; [reflexivity|]. split; [reflexivity|]. split.
  - exists (with_participant email a). rewrite lookup_insert_eq.
    split; [reflexivity|]. split; [reflexivity|]. split; [|repeat split].
    cbn [with_participant participants]. rewrite occurrences_app, (occurrences_absent _ _ Hnew).
    unfold occurrences. cbn. now rewrite String.eqb_refl.
  - intros other Hother. now rewrite lookup_insert_ne.
Qed.

Lemma signup_new_participant_witness :
  let r := fst (signup sample_texts "Chess Club" "ada@mergington.edu" seed_directory) in
  let d' := snd (signup sample_texts "Chess Club" "ada@mergington.edu" seed_directory) in
  status r = 200%Z
  /\ body r = JObj [("message", JStr (confirmation sample_texts "Chess Club" "ada@mergington.edu"))]
  /\ (exists a',
        d' !! "Chess Club" = Some a'
        /\ participants a' = participants chess_club ++ ["ada@mergington.edu"]
        /\ occurrences "ada@mergington.edu" (participants a') = 1
        /\ description a' = description chess_club
        /\ schedule a' = schedule chess_club
        /\ max_participants a' = max_participants chess_club)
  /\ (forall other, other <> "Chess Club" -> d' !! other = seed_directory !! other).
Proof.
  apply (signup_new_participant sample_texts "Chess Club" "ada@mergington.edu"
           seed_directory chess_club).
  - reflexivity.
  - cbn. tauto.
Defined.

(** ** Further properties of the script *)

Import Run.

(** *** What a load leaves alone *)

(** The parts of the page that rendering never writes. *)
Lemma render_entry_frame (entry : string * json) (st : page) :
  let st' := page_of (render_entry entry st) in
  form_values st' = form_values st
  /\ form_defaults st' = form_defaults st
  /\ messageDiv st' = messageDiv st
  /\ clock st' = clock st
  /\ timers st' = timers st
  /\ requests st' = requests st.
Proof.
  destruct entry as [name details]. unfold render_entry.
  destruct (card_innerHTML name details); destruct st; repeat split.
Qed.

Lemma forEach_render_frame (entries : list (string * json)) (st : page) :
  let st' := page_of (forEach render_entry entries st) in
  form_values st' = form_values st
  /\ form_defaults st' = form_defaults st
  /\ messageDiv st' = messageDiv st
  /\ clock st' = clock st
  /\ timers st' = timers st
  /\ requests st' = requests st.
Proof.
  cbv zeta. revert st. induction entries as [|entry entries IH]; intros st; cbn [forEach].
  - repeat split.
  - pose proof (render_entry_frame entry st) as H. cbv zeta in H.
    destruct (render_entry entry st) as [st1|e st1]; cbn [page_of] in H; [|exact H].
    destruct (IH st1) as (I1 & I2 & I3 & I4 & I5 & I6).
    destruct H as (H1 & H2 & H3 & H4 & H5 & H6).
    repeat split; congruence.
Qed.

Lemma fetchActivities_resume_frame (o : fetch_outcome) (st : page) :
  let st' := fetchActivities_resume o st in
  form_values st' = form_values st
  /\ form_defaults st' = form_defaults st
  /\ messageDiv st' = messageDiv st
  /\ clock st' = clock st
  /\ timers st' = timers st
  /\ requests st' = requests st.
Proof.
  cbv zeta. destruct o as [e | status [parsed | e]]; cbn [fetchActivities_resume];
    try (destruct st; repeat split; fail).
  unfold render_activities. cbv zeta.
  destruct (Object_entries (activities (set_activitiesList [] (set_activities parsed st))))
    as [entries|e]; [|destruct st; repeat split].
  pose proof (forEach_render_frame entries (set_activitiesList [] (set_activities parsed st)))
    as H. cbv zeta in H.
  destruct (forEach render_entry entries (set_activitiesList [] (set_activities parsed st)))
    as [st'|e st']; cbn [page_of] in H; destruct st, st'; exact H.
Qed.


(** *** What a load does to the list area and to the selection control *)

(** Rendering appends: what it adds to the list and to the selection
    control, and whether it throws, is decided by the entries alone. *)
Lemma forEach_render_appends (entries : list (string * json)) :
  exists (cards : list child) (options : list option_element) (thrown : option error),
    forall st,
      activitiesList (page_of (forEach render_entry entries st)) = activitiesList st ++ cards
      /\ activitySelect (page_of (forEach render_entry entries st))
         = activitySelect st ++ options
      /\ match thrown with
         | None => exists st', forEach render_entry entries st = Done st'
         | Some e => exists st', forEach render_entry entries st = Thrown e st'
         end.
Proof.
  induction entries as [|[name details] entries IH].
  - exists [], [], None. intros st. cbn. rewrite !app_nil_r. repeat split. now exists st.
  - destruct (card_innerHTML name details) as [html|e] eqn:E.
    + destruct IH as (cards & options & thrown & IH).
      exists (Card "activity-card" html :: cards), (mk_option name name :: options), thrown.
      intros st. cbn [forEach render_entry]. rewrite E.
      specialize (IH (set_activitySelect
                        (activitySelect
                           (set_activitiesList
                              (activitiesList st ++ [Card "activity-card" html]) st)
                         ++ [mk_option name name])
                        (set_activitiesList
                           (activitiesList st ++ [Card "activity-card" html]) st))).
      destruct IH as (I1 & I2 & I3). rewrite I1, I2. destruct st. cbn.
      rewrite <- !app_assoc. repeat split. exact I3.
    + exists [], [], (Some e). intros st. cbn [forEach render_entry]. rewrite E.
      cbn. rewrite !app_nil_r. repeat split. now exists st.
Qed.

(** [X2] The list area after a load is decided by what was delivered, not by
    what the page held: in particular, of two responses in flight the one
    delivered last decides what is listed, whichever was requested first. *)
Theorem load_list_depends_on_delivery_only (o : fetch_outcome) (st1 st2 : page) :
  activitiesList (fetchActivities_resume o st1) = activitiesList (fetchActivities_resume o st2).
Proof.
  destruct o as [e | status [parsed | e]]; cbn [fetchActivities_resume];
    try (destruct st1, st2; reflexivity).
  unfold render_activities. cbv zeta.
  change (activities (set_activitiesList [] (set_activities parsed st1))) with parsed.
  change (activities (set_activitiesList [] (set_activities parsed st2))) with parsed.
  destruct (Object_entries parsed) as [entries|e]; [|destruct st1, st2; reflexivity].
  destruct (forEach_render_appends entries) as (cards & options & thrown & H).
  destruct (H (set_activitiesList [] (set_activities parsed st1))) as (A1 & _ & T1).
  destruct (H (set_activitiesList [] (set_activities parsed st2))) as (A2 & _ & T2).
  destruct thrown as [e|].
  - destruct T1 as [s1 ->], T2 as [s2 ->]. destruct s1, s2. reflexivity.
  - destruct T1 as [s1 E1], T2 as [s2 E2]. rewrite E1, E2 in *. cbn [page_of] in A1, A2.
    rewrite A1, A2. destruct st1, st2. reflexivity.
Qed.

(** A load never removes an option from the selection control. *)
Lemma fetchActivities_resume_keeps_options (o : fetch_outcome) (st : page) :
  starts (activitySelect st) (activitySelect (fetchActivities_resume o st)).
Proof.
  unfold starts.
  destruct o as [e | status [parsed | e]]; cbn [fetchActivities_resume];
    try (exists []; destruct st; cbn; now rewrite app_nil_r).
  unfold render_activities. cbv zeta.
  destruct (Object_entries (activities (set_activitiesList [] (set_activities parsed st))))
    as [entries|e]; [|exists []; destruct st; cbn; now rewrite app_nil_r].
  destruct (forEach_render_appends entries) as (cards & options & thrown & H).
  destruct (H (set_activitiesList [] (set_activities parsed st))) as (_ & A & T).
  exists options.
  destruct (forEach render_entry entries (set_activitiesList [] (set_activities parsed st)))
    as [st'|e st']; cbn [page_of] in A; destruct st, st'; exact A.
Qed.

Lemma iter_load_options (s : list (string * Activity)) (status : Z) (n : nat) (st : page) :
  activitySelect
    (Nat.iter n (fetchActivities_resume (Responded status (Normal (snapshot_json s)))) st)
  = activitySelect st ++ concat (repeat (List.map option_of s) n).
Proof.
  induction n as [|n IH].
  - cbn. now rewrite app_nil_r.
  - rewrite Nat.iter_succ, load_appends_options, IH, <- app_assoc. f_equal.
    cbn [repeat concat].
    clear IH. induction n as [|n IH]; cbn [repeat concat].
    + now rewrite app_nil_r.
    + now rewrite <- app_assoc, IH.
Qed.

(** [X4] Loading the same activity data [n] times leaves the cards of one
    load in the list area and the options of [n] loads in the selection
    control: the options the control held, followed by one option per
    activity for each of the loads. *)
Theorem repeated_load (s : list (string * Activity)) (status : Z) (n : nat) (st : page) :
  let st' :=
    Nat.iter (S n) (fetchActivities_resume (Responded status (Normal (snapshot_json s)))) st in
  activitiesList st' = List.map card_of s
  /\ activitySelect st' = activitySelect st ++ concat (repeat (List.map option_of s) (S n))
  /\ length (activitySelect st') = (length (activitySelect st) + S n * length s)%nat.
Proof.
  cbv zeta. split; [|split].
  - rewrite Nat.iter_succ, load_snapshot.
    destruct (Nat.iter n _ st). reflexivity.
  - apply iter_load_options.
  - rewrite iter_load_options, length_app. f_equal.
    generalize (S n). intros k. induction k as [|k IH]; [reflexivity|].
    cbn [repeat concat]. rewrite length_app, IH, List.length_map. lia.
Qed.

Lemma forEach_app (entries1 entries2 : list (string * json)) (st : page) :
  forEach render_entry (entries1 ++ entries2) st
  = match forEach render_entry entries1 st with
    | Done st' => forEach render_entry entries2 st'
    | Thrown e st' => Thrown e st'
    end.
Proof.
  revert st. induction entries1 as [|entry entries1 IH]; intros st; [reflexivity|].
  cbn [app forEach]. destruct (render_entry entry st); [apply IH | reflexivity].
Qed.

(** [X5] When an entry of the body cannot be rendered, the load stops at it:
    the list area shows the failure message alone and the exception is
    logged, yet the options of the well-formed entries that came before it
    have been added to the selection control and stay there; the entries
    after it are not looked at. *)
Theorem load_stops_at_malformed_entry
  (before : list (string * Activity)) (name : string) (details : json)
  (after : list (string * json)) (e : error) (status : Z) (st : page)
  (Hbad : card_innerHTML name details = Throw e) :
  let parsed :=
    JObj (List.map (fun entry => (fst entry, activity_json (snd entry))) before
          ++ (name, details) :: after) in
  let st' := fetchActivities_resume (Responded status (Normal parsed)) st in
  activitiesList st' = [Markup failure_message]
  /\ activitySelect st' = activitySelect st ++ List.map option_of before
  /\ console st' = console st ++ [("Error fetching activities:", e)]
  /\ activities st' = parsed.
Proof.
  cbv zeta. unfold fetchActivities_resume, render_activities. cbv zeta.
  cbn [Object_entries activities set_activitiesList set_activities].
  rewrite forEach_app, forEach_render_snapshot. cbn [forEach render_entry].
  rewrite Hbad. destruct st. repeat split.
Qed.

Lemma load_stops_at_malformed_entry_witness :
  let parsed :=
    JObj (List.map (fun entry => (fst entry, activity_json (snd entry)))
            [("Chess Club", chess_club)]
          ++ ("Art Club", JNull) :: [("Book Club", activity_json full_club)]) in
  let st' := fetchActivities_resume (Responded 200 (Normal parsed)) fresh_page in
  activitiesList st' = [Markup failure_message]
  /\ activitySelect st'
     = activitySelect fresh_page ++ List.map option_of [("Chess Club", chess_club)]
  /\ console st' = console fresh_page ++ [("Error fetching activities:", TypeError)]
  /\ activities st' = parsed.
Proof.
  apply (load_stops_at_malformed_entry [("Chess Club", chess_club)] "Art Club" JNull
           [("Book Club", activity_json full_club)] TypeError 200 fresh_page).
  reflexivity.
Defined.

Lemma load_of_entries (parsed : json) (entries : list (string * json)) (status : Z)
  (st : page) :
  Object_entries parsed = Normal entries -> entries <> [] ->
  activitiesList (fetchActivities_resume (Responded status (Normal parsed)) st) <> [].
Proof.
  intros HE Hne. unfold fetchActivities_resume, render_activities. cbv zeta.
  change (activities (set_activitiesList [] (set_activities parsed st))) with parsed.
  rewrite HE.
  destruct entries as [|[name details] entries]; [contradiction|].
  cbn [forEach render_entry].
  destruct (card_innerHTML name details) as [html|e]; [|destruct st; discriminate].
  destruct (forEach_render_appends entries) as (cards & options & thrown & H).
  match goal with |- context [forEach render_entry entries ?p] =>
    destruct (H p) as (A & _ & _);
    destruct (forEach render_entry entries p) as [st'|e st'] end.
  - cbn [page_of] in A. rewrite A. destruct st. cbn. discriminate.
  - destruct st'. discriminate.
Qed.

(** [X6] The list area is left empty by a load exactly when the body
    delivered has no entries: the empty object, the empty array, the empty
    string, a number or a boolean.  Such a load adds no option and logs
    nothing; nothing is shown in place of the missing cards. *)
Theorem load_leaves_list_empty (parsed : json) (status : Z) (st : page) :
  let st' := fetchActivities_resume (Responded status (Normal parsed)) st in
  (activitiesList st' = []
   <-> parsed = JObj [] \/ parsed = JArr [] \/ parsed = JStr EmptyString
       \/ (exists b, parsed = JBool b) \/ (exists z, parsed = JNum z))
  /\ (activitiesList st' = [] ->
      activitySelect st' = activitySelect st /\ console st' = console st).
Proof.
  cbv zeta.
  assert (Hback : parsed = JObj [] \/ parsed = JArr [] \/ parsed = JStr EmptyString
                  \/ (exists b, parsed = JBool b) \/ (exists z, parsed = JNum z) ->
                  fetchActivities_resume (Responded status (Normal parsed)) st
                  = set_activitiesList [] (set_activities parsed st)).
  { intros [-> | [-> | [-> | [[b ->] | [z ->]]]]]; reflexivity. }
  assert (Hforth : activitiesList (fetchActivities_resume (Responded status (Normal parsed)) st)
                   = [] ->
                   parsed = JObj [] \/ parsed = JArr [] \/ parsed = JStr EmptyString
                   \/ (exists b, parsed = JBool b) \/ (exists z, parsed = JNum z)).
  { intros H. destruct parsed as [|b|z|s|l|m].
    - destruct st. discriminate H.
    - right. right. right. left. now exists b.
    - right. right. right. right. now exists z.
    - destruct s as [|c s]; [tauto|]. exfalso. revert H.
      eapply load_of_entries; [reflexivity | discriminate].
    - destruct l as [|x l]; [tauto|]. exfalso. revert H.
      eapply load_of_entries; [reflexivity | discriminate].
    - destruct m as [|x m]; [tauto|]. exfalso. revert H.
      eapply load_of_entries; [reflexivity | discriminate]. }
  split; [split|].
  - exact Hforth.
  - intros H. rewrite (Hback H). destruct st. reflexivity.
  - intros H. rewrite (Hback (Hforth H)). destruct st. split; reflexivity.
Qed.

(** *** When a card can be built *)

Lemma Get_object (m : list (string * json)) (p : property) :
  Get (Some (JObj m)) p = Normal (own_property (property_name p) m).
Proof. reflexivity. Qed.

Lemma card_innerHTML_object (name : string) (m : list (string * json)) (p : json) :
  own_property "participants" m = Some p ->
  card_innerHTML name (JObj m)
  = (len ← Get (Some p) p_length;
     list ← (if gt_zero len then
               match p with
               | JArr emails =>
                   Normal ("<ul class=" +:+ dq +:+ "participants-list" +:+ dq +:+ ">"
                           +:+ join EmptyString
                                 (List.map
                                    (fun email => "<li>" +:+ subst (Some email) +:+ "</li>")
                                    emails)
                           +:+ "</ul>")
               | _ => Throw TypeError
               end
             else Normal no_participants);
     Normal
       (nl +:+ "          <h4>" +:+ name +:+ "</h4>"
        +:+ nl +:+ "          <p><strong>Description:</strong> "
        +:+ subst (own_property "description" m) +:+ "</p>"
        +:+ nl +:+ "          <p><strong>Schedule:</strong> "
        +:+ subst (own_property "schedule" m) +:+ "</p>"
        +:+ nl +:+ "          <p><strong>Capacity:</strong> " +:+ subst len +:+ "/"
        +:+ subst (own_property "max_participants" m) +:+ "</p>"
        +:+ nl +:+ "          <div class=" +:+ dq +:+ "participants-section" +:+ dq +:+ ">"
        +:+ nl +:+ "            <p><strong>Current Participants:</strong></p>"
        +:+ nl +:+ "            " +:+ list
        +:+ nl +:+ "          </div>"
        +:+ nl +:+ "        ")).
Proof.
  intros Hp. unfold card_innerHTML, participantsList. rewrite !Get_object.
  cbn [property_name]. rewrite Hp. cbn [mbind completion_bind].
  destruct (Get (Some p) p_length) as [len|e]; [|reflexivity].
  cbn [mbind completion_bind].
  destruct (gt_zero len); [destruct p|]; reflexivity.
Qed.




(** *** What the submit handler leaves alone, logs and schedules *)

Lemma submit_keeps_rendered (st : page) :
  activities (submit st) = activities st
  /\ activitiesList (submit st) = activitiesList st
  /\ activitySelect (submit st) = activitySelect st
  /\ form_values (submit st) = form_values st
  /\ clock (submit st) = clock st.
Proof.
  unfold submit. cbv zeta.
  destruct (negb (ToBoolean (Some (JStr (email (form_values st)))))
            || negb (ToBoolean (Some (JStr (activity (form_values st))))));
    destruct st; repeat split.
Qed.

Lemma submit_resume_keeps_rendered (o : fetch_outcome) (st : page) :
  activities (submit_resume o st) = activities st
  /\ activitiesList (submit_resume o st) = activitiesList st
  /\ activitySelect (submit_resume o st) = activitySelect st
  /\ clock (submit_resume o st) = clock st.
Proof.
  destruct o as [e | status [result | e]]; cbn [submit_resume];
    try (destruct st; repeat split; fail).
  destruct (ok status); [destruct st; repeat split|].
  destruct (Get (Some result) p_detail); destruct st; repeat split.
Qed.

(** [X9] The submit handler never writes the variable [activities], the list
    area or the selection control, neither when the form is submitted nor
    when the response is delivered, whatever the response: what is rendered
    changes through a load only. *)
Theorem signup_keeps_rendered (o : fetch_outcome) (st : page) :
  (activities (submit st) = activities st
   /\ activitiesList (submit st) = activitiesList st
   /\ activitySelect (submit st) = activitySelect st)
  /\ (activities (submit_resume o st) = activities st
      /\ activitiesList (submit_resume o st) = activitiesList st
      /\ activitySelect (submit_resume o st) = activitySelect st).
Proof.
  destruct (submit_keeps_rendered st) as (A & B & C & _).
  destruct (submit_resume_keeps_rendered o st) as (D & E & F & _).
  repeat split; assumption.
Qed.


Lemma submit_resume_timers (o : fetch_outcome) (st : page) :
  timers (submit_resume o st)
  = timers st
    ++ match o with
       | Responded status (Normal result) =>
           if ok status then [clock st + 5000; clock st + 5000]%N
           else match result with
                | JNull => [clock st + 5000]%N
                | _ => [clock st + 5000; clock st + 5000]%N
                end
       | _ => [clock st + 5000]%N
       end.
Proof.
  destruct o as [e | status [result | e]]; cbn [submit_resume];
    try (destruct st; reflexivity).
  destruct (ok status); [destruct st; cbn; now rewrite <- app_assoc|].
  destruct result; cbn [Get]; destruct st; cbn; now rewrite <- ?app_assoc.
Qed.


(** *** Invariants of every run *)

Lemma hide_all_frame (due : list N) (st : page) :
  let st' := fold_right (fun _ s => hide_message s) st due in
  clock st' = clock st /\ timers st' = timers st
  /\ activitySelect st' = activitySelect st /\ requests st' = requests st.
Proof.
  cbv zeta. induction due as [|t due IH]; cbn [fold_right]; [repeat split|].
  destruct IH as (I1 & I2 & I3 & I4).
  destruct (fold_right (fun _ s => hide_message s) st due). cbn in *. repeat split; assumption.
Qed.

Lemma advance_frame (d : N) (st : page) :
  clock (advance d st) = (clock st + d)%N
  /\ timers (advance d st) = List.filter (fun t => clock st + d <? t)%N (timers st)
  /\ activitySelect (advance d st) = activitySelect st
  /\ requests (advance d st) = requests st.
Proof.
  unfold advance. cbv zeta.
  match goal with |- context [fold_right _ ?p ?l] =>
    destruct (hide_all_frame l p) as (H1 & H2 & H3 & H4) end.
  rewrite H1, H2, H3, H4. destruct st. repeat split.
Qed.

Lemma submit_timers (st : page) :
  timers (submit st) = timers st \/ timers (submit st) = timers st ++ [clock st + 5000]%N.
Proof.
  unfold submit. cbv zeta.
  destruct (negb (ToBoolean (Some (JStr (email (form_values st)))))
            || negb (ToBoolean (Some (JStr (activity (form_values st))))));
    destruct st; [right | left]; reflexivity.
Qed.

Lemma submit_message (st : page) :
  timers (submit st) = timers st -> messageDiv (submit st) = messageDiv st.
Proof.
  unfold submit. cbv zeta.
  destruct (negb (ToBoolean (Some (JStr (email (form_values st)))))
            || negb (ToBoolean (Some (JStr (activity (form_values st))))));
    destruct st; cbn; intros H; [|reflexivity].
  exfalso. symmetry in H. exact (not_own_suffix _ _ H).
Qed.

Lemma timers_ahead_add (st st' : page) (added : list N) :
  clock st' = clock st -> timers st' = timers st ++ added ->
  Forall (fun t => t = (clock st + 5000)%N) added ->
  timers_ahead st -> timers_ahead st'.
Proof.
  unfold timers_ahead. intros Hc Ht Ha H. rewrite Hc, Ht. apply Forall_app. split; [exact H|].
  eapply Forall_impl; [exact Ha|]. intros t ->. cbn. lia.
Qed.

Lemma step_timers_ahead (ev : event) (st : page) :
  timers_ahead st -> timers_ahead (step ev st).
Proof.
  intros H. destruct ev as [f | | o | o | d]; cbn [step].
  - destruct st. exact H.
  - destruct (submit_keeps_rendered st) as (_ & _ & _ & _ & Hc).
    destruct (submit_timers st) as [Ht | Ht].
    + apply (timers_ahead_add st _ []); [exact Hc | now rewrite app_nil_r | constructor | exact H].
    + apply (timers_ahead_add st _ [clock st + 5000]%N); [exact Hc | exact Ht | | exact H].
      repeat constructor.
  - destruct (submit_resume_keeps_rendered o st) as (_ & _ & _ & Hc).
    eapply (timers_ahead_add st); [exact Hc | apply submit_resume_timers | | exact H].
    destruct o as [e | status [result | e]]; [repeat constructor | | repeat constructor].
    destruct (ok status); [repeat constructor|]. destruct result; repeat constructor.
  - destruct (fetchActivities_resume_frame o st) as (_ & _ & _ & Hc & Ht & _).
    unfold timers_ahead. rewrite Hc, Ht. exact H.
  - destruct (advance_frame d st) as (Hc & Ht & _).
    unfold timers_ahead in *. rewrite Hc, Ht. clear Hc Ht.
    induction H as [|t l [H1 H2] _ IH]; [constructor|].
    cbn [List.filter]. destruct (N.ltb_spec (clock st + d) t); [|exact IH].
    constructor; [lia | exact IH].
Qed.

Lemma no_timer_left (now : N) (l : list N) :
  List.filter (fun t => t <=? now)%N l = [] ->
  List.filter (fun t => now <? t)%N l = [] -> l = [].
Proof.
  destruct l as [|t l]; [reflexivity|]. cbn [List.filter].
  destruct (N.leb_spec t now); [discriminate|].
  destruct (N.ltb_spec now t); [discriminate | lia].
Qed.

Lemma step_visible_has_timer (ev : event) (st : page) :
  visible_has_timer st -> visible_has_timer (step ev st).
Proof.
  unfold visible_has_timer. intros H. destruct ev as [f | | o | o | d]; cbn [step].
  - destruct st. exact H.
  - intros Hnone. destruct (submit_timers st) as [Ht | Ht].
    + rewrite (submit_message st Ht). apply H. congruence.
    + rewrite Ht in Hnone. destruct (timers st); discriminate Hnone.
  - rewrite submit_resume_timers. intros Hnone. exfalso.
    apply app_eq_nil in Hnone. destruct Hnone as [_ Hnone].
    destruct o as [e | status [result | e]]; [discriminate | | discriminate].
    destruct (ok status); [discriminate|]. destruct result; discriminate.
  - destruct (fetchActivities_resume_frame o st) as (_ & _ & Hm & _ & Ht & _).
    rewrite Hm, Ht. exact H.
  - destruct (advance_frame d st) as (_ & Ht & _). rewrite Ht. intros Hlater.
    destruct (List.filter (fun t => t <=? clock st + d)%N (timers st)) as [|t due] eqn:Hdue.
    + pose proof (no_timer_left _ _ Hdue Hlater) as Hnone.
      rewrite advance_quiet; [exact (H Hnone) | rewrite Hnone; constructor].
    + unfold advance. cbv zeta. rewrite Hdue. apply run_due_some.
Qed.

Lemma run_invariants (evs : list event) (st : page) :
  timers_ahead st -> visible_has_timer st ->
  timers_ahead (run evs st) /\ visible_has_timer (run evs st).
Proof.
  unfold run. revert st. induction evs as [|ev evs IH]; intros st H1 H2; cbn [fold_left].
  - split; assumption.
  - apply IH; [apply step_timers_ahead, H1 | apply step_visible_has_timer, H2].
Qed.

(** [X12] Whatever happens on a page whose message element starts hidden
    (fields typed in, forms submitted, responses delivered, time passing, in
    any order), every pending timer is due within the next 5 seconds, a
    visible message always has a timer pending, and therefore no message
    stays visible for more than 5 seconds once nothing else happens. *)
Theorem message_hidden_within_5_seconds
  (list0 : list child) (select0 : list option_element) (defaults : form)
  (message0 : message_element) (evs : list event)
  (Hhidden : is_hidden message0 = true) :
  let st := run evs (DOMContentLoaded list0 select0 defaults message0) in
  timers_ahead st
  /\ visible_has_timer st
  /\ is_hidden (messageDiv (advance 5000 st)) = true.
Proof.
  cbv zeta.
  destruct (run_invariants evs (DOMContentLoaded list0 select0 defaults message0))
    as [H1 H2].
  - constructor.
  - intros _. exact Hhidden.
  - split; [exact H1|]. split; [exact H2|].
    destruct (timers (run evs (DOMContentLoaded list0 select0 defaults message0)))
      as [|t l] eqn:Ht.
    + rewrite advance_quiet; [apply H2, Ht | rewrite Ht; constructor].
    + unfold timers_ahead in H1. rewrite Ht in H1. inversion H1 as [|? ? [_ Hle] _]; subst.
      apply (advance_due 5000 t); [rewrite Ht; left; reflexivity | exact Hle].
Qed.

Lemma message_hidden_within_5_seconds_witness :
  let evs := [ActivitiesDelivered (Responded 200 (Normal chess_snapshot));
              Typed (mk_form "ada@mergington.edu" "Chess Club");
              Submitted;
              Elapsed 300;
              SignupDelivered (Responded 400 (Normal error_body));
              Elapsed 4000;
              Submitted] in
  let st := run evs (DOMContentLoaded [Markup "<p>Loading activities...</p>"]
                       [placeholder_option] (mk_form EmptyString EmptyString)
                       (mk_message EmptyString ["hidden"])) in
  timers_ahead st
  /\ visible_has_timer st
  /\ is_hidden (messageDiv (advance 5000 st)) = true.
Proof.
  apply (message_hidden_within_5_seconds [Markup "<p>Loading activities...</p>"]
           [placeholder_option] (mk_form EmptyString EmptyString)
           (mk_message EmptyString ["hidden"])).
  reflexivity.
Defined.

Lemma starts_refl {A : Type} (l : list A) : starts l l.
Proof. exists []. now rewrite app_nil_r. Qed.

Lemma starts_trans {A : Type} (l1 l2 l3 : list A) :
  starts l1 l2 -> starts l2 l3 -> starts l1 l3.
Proof. intros [a ->] [b ->]. exists (a ++ b). now rewrite app_assoc. Qed.

Lemma step_keeps_options (ev : event) (st : page) :
  starts (activitySelect st) (activitySelect (step ev st)).
Proof.
  destruct ev as [f | | o | o | d]; cbn [step].
  - destruct st. apply starts_refl.
  - destruct (submit_keeps_rendered st) as (_ & _ & -> & _). apply starts_refl.
  - destruct (submit_resume_keeps_rendered o st) as (_ & _ & -> & _). apply starts_refl.
  - apply fetchActivities_resume_keeps_options.
  - destruct (advance_frame d st) as (_ & _ & -> & _). apply starts_refl.
Qed.

(** [X3] Nothing that happens on the page ever removes an option from the
    selection control: after any sequence of events the options the control
    held at the beginning are still its first options, in the same order. *)
Theorem options_are_never_removed (evs : list event) (st : page) :
  starts (activitySelect st) (activitySelect (run evs st)).
Proof.
  unfold run. revert st. induction evs as [|ev evs IH]; intros st; cbn [fold_left].
  - apply starts_refl.
  - eapply starts_trans; [apply step_keeps_options | apply IH].
Qed.

Lemma submit_requests (st : page) :
  requests (submit st) = requests st
  \/ exists activity email,
       requests (submit st) = requests st ++ [mk_request "POST" (signup_url activity email)].
Proof.
  unfold submit. cbv zeta.
  destruct (negb (ToBoolean (Some (JStr (email (form_values st)))))
            || negb (ToBoolean (Some (JStr (activity (form_values st)))))).
  - left. destruct st. reflexivity.
  - right. exists (activity (form_values st)), (email (form_values st)).
    destruct st. reflexivity.
Qed.

Lemma submit_resume_requests (o : fetch_outcome) (st : page) :
  requests (submit_resume o st) = requests st
  \/ requests (submit_resume o st) = requests st ++ [mk_request "GET" "/activities"].
Proof.
  destruct o as [e | status [result | e]]; cbn [submit_resume];
    try (left; destruct st; reflexivity).
  destruct (ok status); [right; destruct st; reflexivity|].
  destruct (Get (Some result) p_detail); left; destruct st; reflexivity.
Qed.

(** What one event adds to the request log: nothing, or one request of the
    script's two kinds, and only when the event is a submission or a
    sign-up response. *)
Lemma step_requests (ev : event) (st : page) :
  exists added,
    requests (step ev st) = requests st ++ added
    /\ Forall script_request added
    /\ (length added
        <= match ev with Submitted | SignupDelivered _ => 1 | _ => 0 end)%nat.
Proof.
  destruct ev as [f | | o | o | d]; cbn [step].
  - exists []. destruct st. cbn. rewrite app_nil_r. repeat split; [constructor | lia].
  - destruct (submit_requests st) as [H | (a & e & H)].
    + exists []. rewrite H, app_nil_r. repeat split; [constructor | cbn; lia].
    + exists [mk_request "POST" (signup_url a e)]. rewrite H.
      repeat split; [|cbn; lia]. constructor; [|constructor]. right. now exists a, e.
  - destruct (submit_resume_requests o st) as [H | H].
    + exists []. rewrite H, app_nil_r. repeat split; [constructor | cbn; lia].
    + exists [mk_request "GET" "/activities"]. rewrite H.
      repeat split; [|cbn; lia]. constructor; [|constructor]. now left.
  - destruct (fetchActivities_resume_frame o st) as (_ & _ & _ & _ & _ & H).
    exists []. rewrite H, app_nil_r. repeat split; [constructor | cbn; lia].
  - destruct (advance_frame d st) as (_ & _ & _ & H).
    exists []. rewrite H, app_nil_r. repeat split; [constructor | cbn; lia].
Qed.

Lemma run_requests (evs : list event) (st : page) :
  exists added,
    requests (run evs st) = requests st ++ added
    /\ Forall script_request added
    /\ (length added
        <= length (List.filter
                     (fun ev => match ev with
                                | Submitted | SignupDelivered _ => true
                                | _ => false
                                end) evs))%nat.
Proof.
  unfold run. revert st. induction evs as [|ev evs IH]; intros st; cbn [fold_left].
  - exists []. rewrite app_nil_r. repeat split; [constructor | cbn; lia].
  - destruct (step_requests ev st) as (a1 & E1 & F1 & L1).
    destruct (IH (step ev st)) as (a2 & E2 & F2 & L2).
    exists (a1 ++ a2). rewrite E2, E1, <- app_assoc. repeat split.
    + apply Forall_app. split; assumption.
    + rewrite length_app. cbn [List.filter].
      destruct ev; cbn [length] in *; lia.
Qed.

(** [X13] From the start of the script on, the first request issued is the
    GET of the activity list, and every request is either that GET or the
    POST of a sign-up.  Requests are issued by submissions and by sign-up
    responses only, one at most for each: neither the passing of time nor
    the delivery of a list, failed or not, makes the script issue a
    request. *)
Theorem requests_of_a_run
  (list0 : list child) (select0 : list option_element) (defaults : form)
  (message0 : message_element) (evs : list event) :
  let st := run evs (DOMContentLoaded list0 select0 defaults message0) in
  Forall script_request (requests st)
  /\ (exists later, requests st = mk_request "GET" "/activities" :: later)
  /\ (length (requests st)
      <= 1 + length (List.filter
                       (fun ev => match ev with
                                  | Submitted | SignupDelivered _ => true
                                  | _ => false
                                  end) evs))%nat.
Proof.
  cbv zeta.
  destruct (run_requests evs (DOMContentLoaded list0 select0 defaults message0))
    as (added & E & F & L).
  rewrite E. cbn [DOMContentLoaded fetchActivities fetch requests set_requests app].
  repeat split.
  - constructor; [now left | exact F].
  - now exists added.
  - cbn [length]. lia.
Qed.

(** *** The URL of a sign-up *)

Lemma encodeURIComponent_cons (c : ascii) (s : string) :
  encodeURIComponent (String c s)
  = encodeURIComponent (String c EmptyString) +:+ encodeURIComponent s.
Proof.
  cbn [encodeURIComponent]. now rewrite append_empty_r.
Qed.

Lemma escaped_unit_safe (c : ascii) :
  all_url_safe (encodeURIComponent (String c EmptyString)).
Proof. destruct c as [[] [] [] [] [] [] [] []]; vm_compute; reflexivity. Qed.

Lemma unescape_escaped_unit (c : ascii) (rest : string) :
  unescape_head (encodeURIComponent (String c EmptyString) +:+ rest) = Some (c, rest).
Proof. destruct c as [[] [] [] [] [] [] [] []]; cbv; reflexivity. Qed.

Lemma all_url_safe_app (a b : string) :
  all_url_safe a -> all_url_safe b -> all_url_safe (a +:+ b).
Proof.
  unfold all_url_safe. induction a as [|c a IH]; intros Ha Hb; [exact Hb|].
  change (String c a +:+ b) with (String c (a +:+ b)).
  cbn [list_ascii_of_string forallb] in *.
  apply andb_true_iff in Ha. destruct Ha as [Hc Ha]. rewrite Hc. apply IH; assumption.
Qed.

Lemma encodeURIComponent_safe (s : string) : all_url_safe (encodeURIComponent s).
Proof.
  induction s as [|c s IH]; [reflexivity|].
  rewrite encodeURIComponent_cons. apply all_url_safe_app; [apply escaped_unit_safe | exact IH].
Qed.


Lemma encodeURIComponent_inj (s1 s2 : string) :
  encodeURIComponent s1 = encodeURIComponent s2 -> s1 = s2.
Proof.
  revert s2. induction s1 as [|c1 s1 IH]; intros [|c2 s2] H.
  - reflexivity.
  - apply (f_equal unescape_head) in H.
    rewrite encodeURIComponent_cons, unescape_escaped_unit in H. discriminate H.
  - apply (f_equal unescape_head) in H.
    rewrite encodeURIComponent_cons, unescape_escaped_unit in H. discriminate H.
  - apply (f_equal unescape_head) in H.
    rewrite (encodeURIComponent_cons c1 s1), (encodeURIComponent_cons c2 s2),
      !unescape_escaped_unit in H.
    injection H as -> H. f_equal. apply IH, H.
Qed.

Lemma split_at_slash (x y r r' : string) :
  all_url_safe x -> all_url_safe y ->
  x +:+ String "/" r = y +:+ String "/" r' -> x = y /\ r = r'.
Proof.
  unfold all_url_safe. revert y. induction x as [|c x IH]; intros [|d y] Hx Hy H.
  - injection H as ->. split; reflexivity.
  - change (String "/" r = String d (y +:+ String "/" r')) in H. injection H as <- _.
    cbn in Hy. discriminate Hy.
  - change (String c (x +:+ String "/" r) = String "/" r') in H. injection H as -> _.
    cbn in Hx. discriminate Hx.
  - change (String c (x +:+ String "/" r) = String d (y +:+ String "/" r')) in H.
    injection H as -> H. cbn [list_ascii_of_string forallb] in Hx, Hy.
    apply andb_true_iff in Hx, Hy. destruct Hx as [_ Hx], Hy as [_ Hy].
    destruct (IH y Hx Hy H) as [-> ->]. split; reflexivity.
Qed.



(** *** The function that rebuilds the selection control *)



(** *** A sign-up from submission to reload *)


